(** * Character classification and case conversion (libc [ctype.c])

    A shallow embedding of [src/lang_c/libc/src/ctype.c].  The C type
    [int] is a 32-bit two's-complement integer, modelled as a [Z] lying in
    [INT_MIN .. INT_MAX]; [unsigned] is a [Z] in [0 .. UINT_MOD - 1] whose
    arithmetic wraps modulo [2^32].  Bitwise operators on [int] are the
    operators of [Z], which are two's complement on an unbounded word. *)

From Stdlib Require Import ZArith Lia Bool List Ascii.
Import ListNotations.

Local Open Scope Z_scope.

(** ** The fragment of C the file is written in *)

Module C.

Definition INT_MIN : Z := - 2 ^ 31.
Definition INT_MAX : Z := 2 ^ 31 - 1.
Definition UINT_MOD : Z := 2 ^ 32.

(** Values an [int] can hold. *)
Definition is_int (c : Z) : Prop := INT_MIN <= c <= INT_MAX.

(** Values an [unsigned] can hold. *)
Definition is_unsigned (u : Z) : Prop := 0 <= u < UINT_MOD.

(** The cast [(unsigned)c]: reduction modulo [2^32]. *)
Definition to_unsigned (c : Z) : Z := c mod UINT_MOD.

(** [a - b] on [unsigned] operands, with wrap-around. *)
Definition usub (a b : Z) : Z := (a - b) mod UINT_MOD.

(** A comparison yields the [int] 1 or 0. *)
Definition of_bool (b : bool) : Z := if b then 1 else 0.

Definition lt (a b : Z) : Z := of_bool (a <? b).
Definition eq (a b : Z) : Z := of_bool (a =? b).

(** Truth of an [int] used as a condition. *)
Definition truthy (a : Z) : bool := negb (a =? 0).

(** [!a], [a || b] and [a && b]; the operands here have no effects, so
    short-circuit evaluation is not observable. *)
Definition log_not (a : Z) : Z := of_bool (negb (truthy a)).
Definition log_or (a b : Z) : Z := of_bool (truthy a || truthy b).
Definition log_and (a b : Z) : Z := of_bool (truthy a && truthy b).

(** A character constant has type [int] and the value of its code. *)
Definition chr (a : ascii) : Z := Z.of_N (N_of_ascii a).

End C.

Import C.

(** ** The functions of [ctype.c], in the order of the file *)

Definition isascii (c : Z) : Z :=
  log_not (Z.land c (Z.lnot 0x7f)).

Definition isblank (c : Z) : Z :=
  log_or (eq c (chr " ")) (eq c (chr "009")).

Definition isalpha (c : Z) : Z :=
  lt (usub (Z.lor (to_unsigned c) 32) (chr "a")) 26.

Definition isdigit (c : Z) : Z :=
  lt (usub (to_unsigned c) (chr "0")) 10.

Definition isalnum (c : Z) : Z :=
  log_or (isalpha c) (isdigit c).

Definition isspace (c : Z) : Z :=
  log_or (eq c (chr " ")) (lt (usub (to_unsigned c) (chr "009")) 5).

Definition isupper (c : Z) : Z :=
  lt (usub (to_unsigned c) (chr "A")) 26.

Definition islower (c : Z) : Z :=
  lt (usub (to_unsigned c) (chr "a")) 26.

Definition tolower (c : Z) : Z :=
  if truthy (isupper c) then Z.lor c 32 else c.

Definition toupper (c : Z) : Z :=
  if truthy (islower c) then Z.land c 0x5f else c.

Definition toascii (c : Z) : Z :=
  Z.land c 0x7f.

Definition isprint (c : Z) : Z :=
  lt (usub (to_unsigned c) 0x20) 0x5f.

Definition isgraph (c : Z) : Z :=
  lt (usub (to_unsigned c) 0x21) 0x5e.

Definition ispunct (c : Z) : Z :=
  log_and (isgraph c) (log_not (isalnum c)).

Definition iscntrl (c : Z) : Z :=
  log_or (lt (to_unsigned c) 0x20) (eq c 0x7f).

Definition isxdigit (c : Z) : Z :=
  log_or (isdigit c) (lt (usub (Z.lor (to_unsigned c) 32) (chr "a")) 6).

(** ** The file as a whole

    [predicate] names the thirteen classification functions, [transform]
    the three conversions; [call] dispatches a name to its function. *)

Inductive predicate : Set :=
| Isascii | Isblank | Isupper | Islower | Isalpha | Isdigit | Isalnum
| Isspace | Isxdigit | Isgraph | Isprint | Ispunct | Iscntrl.

Inductive transform : Set := Tolower | Toupper | Toascii.

Inductive function : Set :=
| Pred (p : predicate)
| Trans (t : transform).

Definition classify (p : predicate) : Z -> Z :=
  match p with
  | Isascii => isascii | Isblank => isblank | Isupper => isupper
  | Islower => islower | Isalpha => isalpha | Isdigit => isdigit
  | Isalnum => isalnum | Isspace => isspace | Isxdigit => isxdigit
  | Isgraph => isgraph | Isprint => isprint | Ispunct => ispunct
  | Iscntrl => iscntrl
  end.

Definition convert (t : transform) : Z -> Z :=
  match t with
  | Tolower => tolower | Toupper => toupper | Toascii => toascii
  end.

Definition call (f : function) : Z -> Z :=
  match f with
  | Pred p => classify p
  | Trans t => convert t
  end.

Definition all_predicates : list predicate :=
  [Isascii; Isblank; Isupper; Islower; Isalpha; Isdigit; Isalnum;
   Isspace; Isxdigit; Isgraph; Isprint; Ispunct; Iscntrl].

Definition all_functions : list function :=
  map Pred all_predicates ++ map Trans [Tolower; Toupper; Toascii].

(** ** The contract table of the specification

    One two-sided range per predicate, written from the wording of the
    table and independent of the code above. *)

Module Table.

Definition between (lo hi c : Z) : bool := (lo <=? c) && (c <=? hi).

Definition isascii (c : Z) : bool := between 0 127 c.
Definition isblank (c : Z) : bool := (c =? chr " ") || (c =? chr "009").
Definition isupper (c : Z) : bool := between (chr "A") (chr "Z") c.
Definition islower (c : Z) : bool := between (chr "a") (chr "z") c.
Definition isalpha (c : Z) : bool := isupper c || islower c.
Definition isdigit (c : Z) : bool := between (chr "0") (chr "9") c.
Definition isalnum (c : Z) : bool := isalpha c || isdigit c.
(** space, or one of the five codes starting at tab *)
Definition isspace (c : Z) : bool :=
  (c =? chr " ") || between (chr "009") (chr "009" + 4) c.
Definition isxdigit (c : Z) : bool :=
  isdigit c || between (chr "a") (chr "f") c
            || between (chr "A") (chr "F") c.
Definition isgraph (c : Z) : bool := between 0x21 0x7e c.
Definition isprint (c : Z) : bool := between 0x20 0x7e c.
Definition ispunct (c : Z) : bool := isgraph c && negb (isalnum c).
(** [c < 0x20] or [c == 0x7f], negative inputs counted as control *)
Definition iscntrl (c : Z) : bool := (c <? 0x20) || (c =? 0x7f).

(** What the code computes for [iscntrl]: the lower part of the range
    stops at zero. *)
Definition iscntrl_nonneg (c : Z) : bool :=
  between 0 0x1f c || (c =? 0x7f).

Definition range (p : predicate) : Z -> bool :=
  match p with
  | Isascii => isascii | Isblank => isblank | Isupper => isupper
  | Islower => islower | Isalpha => isalpha | Isdigit => isdigit
  | Isalnum => isalnum | Isspace => isspace | Isxdigit => isxdigit
  | Isgraph => isgraph | Isprint => isprint | Ispunct => ispunct
  | Iscntrl => iscntrl
  end.

(** The table with the [iscntrl] row replaced by [iscntrl_nonneg]. *)
Definition range_nonneg_cntrl (p : predicate) : Z -> bool :=
  match p with
  | Iscntrl => iscntrl_nonneg
  | _ => range p
  end.

End Table.

(** An ASCII letter: a code in ['A'..'Z'] or ['a'..'z']. *)
Definition is_letter (c : Z) : Prop :=
  chr "A" <= c <= chr "Z" \/ chr "a" <= c <= chr "z".

(** ** The same functions, with every operation checked

    A second reading of the file in which nothing is taken for granted: a
    computation runs in a [world] (the memory and every other state of the
    program) and either is undefined or yields a value and the world it
    leaves.  Each operator checks that its operands are values of its
    operand type and that its result is a value of its result type;
    [||] and [&&] evaluate their right operand only when C does. *)

Module Checked.

Section World.

Context {world : Type}.

Definition comp (A : Type) : Type := world -> option (A * world).

Definition ret {A : Type} (a : A) : comp A := fun w => Some (a, w).

Definition undefined {A : Type} : comp A := fun _ => None.

Definition bind {A B : Type} (m : comp A) (k : A -> comp B) : comp B :=
  fun w => match m w with
           | Some (a, w') => k a w'
           | None => None
           end.

Definition in_int (a : Z) : bool := (INT_MIN <=? a) && (a <=? INT_MAX).

Definition in_unsigned (a : Z) : bool := (0 <=? a) && (a <? UINT_MOD).

(** The value [v], provided the checks [ok] hold. *)
Definition checked (ok : bool) (v : Z) : comp Z :=
  if ok then ret v else undefined.

(** A constant or variable of type [int]. *)
Definition int_val (a : Z) : comp Z := checked (in_int a) a.

(** [(unsigned)a], also the conversion of an [int] operand that meets an
    [unsigned] one. *)
Definition cast (a : Z) : comp Z := checked (in_int a) (to_unsigned a).

(** [a - b], [a | b] and [a < b] on [unsigned] operands. *)
Definition u_sub (a b : Z) : comp Z :=
  checked (in_unsigned a && in_unsigned b && in_unsigned (usub a b))
    (usub a b).

Definition u_or (a b : Z) : comp Z :=
  checked (in_unsigned a && in_unsigned b && in_unsigned (Z.lor a b))
    (Z.lor a b).

Definition u_lt (a b : Z) : comp Z :=
  checked (in_unsigned a && in_unsigned b) (lt a b).

(** [a == b], [a | b], [a & b], [~a] and [!a] on [int] operands. *)
Definition i_eq (a b : Z) : comp Z :=
  checked (in_int a && in_int b) (eq a b).

Definition i_or (a b : Z) : comp Z :=
  checked (in_int a && in_int b && in_int (Z.lor a b)) (Z.lor a b).

Definition i_and (a b : Z) : comp Z :=
  checked (in_int a && in_int b && in_int (Z.land a b)) (Z.land a b).

Definition i_not (a : Z) : comp Z :=
  checked (in_int a && in_int (Z.lnot a)) (Z.lnot a).

Definition l_not (a : Z) : comp Z :=
  checked (in_int a) (log_not a).

(** [a || b]: [b] is evaluated only when [a] is zero. *)
Definition or_else (ma mb : comp Z) : comp Z :=
  bind ma (fun a =>
    if truthy a then ret 1
    else bind mb (fun b => ret (of_bool (truthy b)))).

(** [a && b]: [b] is evaluated only when [a] is nonzero. *)
Definition and_then (ma mb : comp Z) : comp Z :=
  bind ma (fun a =>
    if truthy a then bind mb (fun b => ret (of_bool (truthy b)))
    else ret 0).

Notation "x <- m ;; k" := (bind m (fun x => k))
  (at level 61, m at next level, right associativity).

Definition isascii (c : Z) : comp Z :=
  m <- i_not 0x7f ;; a <- i_and c m ;; l_not a.

Definition isblank (c : Z) : comp Z :=
  or_else (i_eq c (chr " ")) (i_eq c (chr "009")).

Definition isalpha (c : Z) : comp Z :=
  u <- cast c ;; k <- cast 32 ;; v <- u_or u k ;;
  a <- cast (chr "a") ;; d <- u_sub v a ;;
  n <- cast 26 ;; u_lt d n.

Definition isdigit (c : Z) : comp Z :=
  u <- cast c ;; z <- cast (chr "0") ;; d <- u_sub u z ;;
  n <- cast 10 ;; u_lt d n.

Definition isalnum (c : Z) : comp Z :=
  or_else (isalpha c) (isdigit c).

Definition isspace (c : Z) : comp Z :=
  or_else (i_eq c (chr " "))
    (u <- cast c ;; t <- cast (chr "009") ;; d <- u_sub u t ;;
     n <- cast 5 ;; u_lt d n).

Definition isupper (c : Z) : comp Z :=
  u <- cast c ;; a <- cast (chr "A") ;; d <- u_sub u a ;;
  n <- cast 26 ;; u_lt d n.

Definition islower (c : Z) : comp Z :=
  u <- cast c ;; a <- cast (chr "a") ;; d <- u_sub u a ;;
  n <- cast 26 ;; u_lt d n.

Definition tolower (c : Z) : comp Z :=
  b <- isupper c ;;
  if truthy b then i_or c 32 else int_val c.

Definition toupper (c : Z) : comp Z :=
  b <- islower c ;;
  if truthy b then i_and c 0x5f else int_val c.

Definition toascii (c : Z) : comp Z :=
  i_and c 0x7f.

Definition isprint (c : Z) : comp Z :=
  u <- cast c ;; l <- cast 0x20 ;; d <- u_sub u l ;;
  n <- cast 0x5f ;; u_lt d n.

Definition isgraph (c : Z) : comp Z :=
  u <- cast c ;; l <- cast 0x21 ;; d <- u_sub u l ;;
  n <- cast 0x5e ;; u_lt d n.

Definition ispunct (c : Z) : comp Z :=
  and_then (isgraph c) (a <- isalnum c ;; l_not a).

Definition iscntrl (c : Z) : comp Z :=
  or_else (u <- cast c ;; n <- cast 0x20 ;; u_lt u n) (i_eq c 0x7f).

Definition isxdigit (c : Z) : comp Z :=
  or_else (isdigit c)
    (u <- cast c ;; k <- cast 32 ;; v <- u_or u k ;;
     a <- cast (chr "a") ;; d <- u_sub v a ;;
     n <- cast 6 ;; u_lt d n).

Definition classify (p : predicate) : Z -> comp Z :=
  match p with
  | Isascii => isascii | Isblank => isblank | Isupper => isupper
  | Islower => islower | Isalpha => isalpha | Isdigit => isdigit
  | Isalnum => isalnum | Isspace => isspace | Isxdigit => isxdigit
  | Isgraph => isgraph | Isprint => isprint | Ispunct => ispunct
  | Iscntrl => iscntrl
  end.

Definition convert (t : transform) : Z -> comp Z :=
  match t with
  | Tolower => tolower | Toupper => toupper | Toascii => toascii
  end.

Definition call (f : function) : Z -> comp Z :=
  match f with
  | Pred p => classify p
  | Trans t => convert t
  end.

(** Two calls of [f] on the same argument, one after the other. *)
Definition call_twice (f : function) (c : Z) : comp (Z * Z) :=
  bind (call f c) (fun v1 => bind (call f c) (fun v2 => ret (v1, v2))).

End World.

End Checked.

(** ** Concrete cases *)

Example isalpha_A : isalpha (chr "A") = 1. Proof. reflexivity. Qed.
Example isalpha_5 : isalpha (chr "5") = 0. Proof. reflexivity. Qed.
Example tolower_A : tolower (chr "A") = chr "a". Proof. reflexivity. Qed.
Example toupper_z : toupper (chr "z") = chr "Z". Proof. reflexivity. Qed.
Example iscntrl_m1 : iscntrl (-1) = 0. Proof. reflexivity. Qed.
Example iscntrl_del : iscntrl 0x7f = 1. Proof. reflexivity. Qed.
Example isspace_nl : isspace (chr "010") = 1. Proof. reflexivity. Qed.
Example ispunct_bang : ispunct (chr "!") = 1. Proof. reflexivity. Qed.
Example isascii_m1 : isascii (-1) = 0. Proof. reflexivity. Qed.
Example toascii_200 : toascii 200 = 72. Proof. reflexivity. Qed.
Example checked_tolower_A :
  Checked.tolower (chr "A") tt = Some (chr "a", tt).
Proof. reflexivity. Qed.
Example checked_ispunct_m1 : Checked.ispunct (-1) tt = Some (0, tt).
Proof. reflexivity. Qed.
Example checked_rejects_non_int : Checked.isalpha (2 ^ 31) tt = None.
Proof. reflexivity. Qed.

(** ** Arithmetic of the two integer types *)

Section WrapAround.

Variable c : Z.
Hypothesis c_int : is_int c.

Lemma to_unsigned_is_unsigned : is_unsigned (to_unsigned c).
Proof.
  unfold is_unsigned, to_unsigned, UINT_MOD.
  apply Z.mod_pos_bound; reflexivity.
Qed.

Lemma to_unsigned_nonneg : 0 <= c -> to_unsigned c = c.
Proof.
  intros Hc. unfold to_unsigned, UINT_MOD.
  unfold is_int, INT_MIN, INT_MAX in c_int.
  apply Z.mod_small; lia.
Qed.

Lemma to_unsigned_neg : c < 0 -> to_unsigned c = c + UINT_MOD.
Proof.
  intros Hc. unfold to_unsigned, UINT_MOD.
  unfold is_int, INT_MIN, INT_MAX in c_int.
  symmetry; apply (Z.mod_unique c (2 ^ 32) (-1)); lia.
Qed.

(** The unsigned-subtraction idiom: one comparison decides membership in
    [lo .. lo + w - 1]. *)
Lemma range_check (lo w : Z) :
  0 <= lo -> 0 <= w -> lo + w <= 2 ^ 31 ->
  lt (usub (to_unsigned c) lo) w = of_bool ((lo <=? c) && (c <? lo + w)).
Proof.
  intros Hlo Hw Hsum. unfold lt, usub. f_equal.
  unfold is_int, INT_MIN, INT_MAX in c_int.
  destruct (Z.ltb_spec c 0) as [Hneg | Hpos].
  - rewrite (to_unsigned_neg Hneg). unfold UINT_MOD.
    rewrite (Z.mod_small (c + 2 ^ 32 - lo)) by lia.
    destruct (Z.leb_spec lo c), (Z.ltb_spec c (lo + w)),
      (Z.ltb_spec (c + 2 ^ 32 - lo) w); simpl; try reflexivity; lia.
  - rewrite (to_unsigned_nonneg Hpos). unfold UINT_MOD.
    destruct (Z.leb_spec lo c) as [Hle | Hlt]; cbn [andb orb].
    + rewrite (Z.mod_small (c - lo)) by lia.
      destruct (Z.ltb_spec c (lo + w)), (Z.ltb_spec (c - lo) w);
        try reflexivity; lia.
    + rewrite <- (Z.mod_unique (c - lo) (2 ^ 32) (-1) (c - lo + 2 ^ 32))
        by lia.
      destruct (Z.ltb_spec (c - lo + 2 ^ 32) w); try reflexivity; lia.
Qed.

End WrapAround.

(** ** Setting bit 5 *)

Ltac euclid := Z.to_euclidean_division_equations; lia.

Lemma land_32 (u : Z) : Z.land u 32 = if Z.testbit u 5 then 32 else 0.
Proof.
  apply Z.bits_inj'; intros n Hn.
  rewrite Z.land_spec. change 32 with (2 ^ 5).
  rewrite Z.pow2_bits_eqb by lia.
  destruct (Z.eqb_spec 5 n) as [<- | Hne].
  - destruct (Z.testbit u 5); [reflexivity | now rewrite Z.bits_0].
  - rewrite andb_false_r.
    destruct (Z.testbit u 5); [| now rewrite Z.bits_0].
    rewrite Z.pow2_bits_eqb by lia.
    symmetry; now apply Z.eqb_neq.
Qed.

Lemma lor_32 (u : Z) : Z.lor u 32 = if Z.testbit u 5 then u else u + 32.
Proof.
  pose proof (Z.add_lor_land u 32) as H. rewrite land_32 in H.
  destruct (Z.testbit u 5); lia.
Qed.

Lemma testbit_5 (u : Z) : Z.testbit u 5 = (32 <=? u mod 64).
Proof.
  rewrite Z.testbit_eqb by lia. change (2 ^ 5) with 32.
  destruct (Z.eqb_spec ((u / 32) mod 2) 1), (Z.leb_spec 32 (u mod 64));
    try reflexivity; exfalso; euclid.
Qed.

(** Case folding followed by a range check within [96 .. 127] accepts the
    range and its copy 32 below. *)
Lemma folded_range_check (c lo w : Z) :
  is_int c -> 96 <= lo -> 0 <= w -> lo + w <= 128 ->
  lt (usub (Z.lor (to_unsigned c) 32) lo) w =
  of_bool (((lo <=? c) && (c <? lo + w)) ||
           ((lo - 32 <=? c) && (c <? lo - 32 + w))).
Proof.
  intros Hc Hlo Hw Hsum. unfold lt, usub. f_equal.
  rewrite lor_32, testbit_5.
  pose proof Hc as Hr. unfold is_int, INT_MIN, INT_MAX in Hr.
  destruct (Z.ltb_spec c 0) as [Hneg | Hpos].
  - rewrite (to_unsigned_neg c Hc Hneg). unfold UINT_MOD.
    destruct (Z.leb_spec 32 ((c + 2 ^ 32) mod 64)).
    + rewrite (Z.mod_small (c + 2 ^ 32 - lo)) by euclid.
      destruct (Z.leb_spec lo c), (Z.leb_spec (lo - 32) c),
        (Z.ltb_spec (c + 2 ^ 32 - lo) w); simpl; try reflexivity; euclid.
    + rewrite (Z.mod_small (c + 2 ^ 32 + 32 - lo)) by euclid.
      destruct (Z.leb_spec lo c), (Z.leb_spec (lo - 32) c),
        (Z.ltb_spec (c + 2 ^ 32 + 32 - lo) w); simpl; try reflexivity; euclid.
  - rewrite (to_unsigned_nonneg c Hc Hpos). unfold UINT_MOD.
    destruct (Z.leb_spec 32 (c mod 64)) as [Hbit | Hbit].
    + destruct (Z.leb_spec lo c) as [Hle | Hlt]; cbn [andb orb].
      * rewrite (Z.mod_small (c - lo)) by euclid.
        destruct (Z.ltb_spec c (lo + w)), (Z.ltb_spec (c - lo) w),
          (Z.leb_spec (lo - 32) c), (Z.ltb_spec c (lo - 32 + w));
          simpl; try reflexivity; euclid.
      * rewrite <- (Z.mod_unique (c - lo) (2 ^ 32) (-1) (c - lo + 2 ^ 32))
          by euclid.
        destruct (Z.ltb_spec (c - lo + 2 ^ 32) w),
          (Z.leb_spec (lo - 32) c), (Z.ltb_spec c (lo - 32 + w));
          simpl; try reflexivity; euclid.
    + destruct (Z.leb_spec (lo - 32) c) as [Hle | Hlt]; cbn [andb orb].
      * rewrite (Z.mod_small (c + 32 - lo)) by euclid.
        destruct (Z.ltb_spec c (lo - 32 + w)), (Z.ltb_spec (c + 32 - lo) w),
          (Z.leb_spec lo c), (Z.ltb_spec c (lo + w));
          simpl; try reflexivity; euclid.
      * rewrite <- (Z.mod_unique (c + 32 - lo) (2 ^ 32) (-1)
                      (c + 32 - lo + 2 ^ 32)) by euclid.
        destruct (Z.ltb_spec (c + 32 - lo + 2 ^ 32) w),
          (Z.leb_spec lo c), (Z.ltb_spec c (lo + w));
          simpl; try reflexivity; euclid.
Qed.

(** ** Masks *)

Lemma land_0x7f (c : Z) : Z.land c 0x7f = c mod 128.
Proof. exact (Z.land_ones c 7 ltac:(lia)). Qed.

Lemma land_not_0x7f (c : Z) : Z.land c (Z.lnot 0x7f) = c - c mod 128.
Proof. rewrite <- Z.sub_land_same_l, land_0x7f. reflexivity. Qed.

Lemma land_0x5f (c : Z) :
  Z.land c 0x5f = c mod 128 - (if 32 <=? c mod 64 then 32 else 0).
Proof.
  assert (H : Z.land c 0x5f = Z.land (Z.land c 0x7f) (Z.lnot 32)).
  { rewrite <- Z.land_assoc. reflexivity. }
  rewrite H, <- Z.sub_land_same_l, land_32, testbit_5, land_0x7f.
  replace ((c mod 128) mod 64) with (c mod 64) by euclid.
  reflexivity.
Qed.

(** ** Conditions *)

Lemma truthy_of_bool (b : bool) : truthy (of_bool b) = b.
Proof. destruct b; reflexivity. Qed.

Lemma log_or_of_bool (a b : bool) :
  log_or (of_bool a) (of_bool b) = of_bool (a || b).
Proof. unfold log_or. now rewrite !truthy_of_bool. Qed.

Lemma log_and_of_bool (a b : bool) :
  log_and (of_bool a) (of_bool b) = of_bool (a && b).
Proof. unfold log_and. now rewrite !truthy_of_bool. Qed.

Lemma log_not_of_bool (b : bool) : log_not (of_bool b) = of_bool (negb b).
Proof. unfold log_not. now rewrite truthy_of_bool. Qed.

Lemma of_bool_nonzero (b : bool) : of_bool b <> 0 <-> b = true.
Proof. destruct b; cbn; split; intros H; try easy. Qed.

Lemma of_bool_zero (b : bool) : of_bool b = 0 <-> b = false.
Proof. destruct b; cbn; split; intros H; easy. Qed.

(** ** Each function in closed form, for every [int] *)

Ltac chars :=
  repeat match goal with
    | |- context [chr ?a] =>
        let v := eval vm_compute in (chr a) in change (chr a) with v
    end.

Ltac zbool :=
  repeat match goal with
    | |- context [?a <=? ?b] => destruct (Z.leb_spec a b)
    | |- context [?a <? ?b] => destruct (Z.ltb_spec a b)
    | |- context [?a =? ?b] => destruct (Z.eqb_spec a b)
    end;
  cbn [andb orb negb of_bool]; intros;
  try reflexivity; try discriminate; try euclid.

Section ClosedForms.

Variable c : Z.
Hypothesis c_int : is_int c.

Lemma isupper_range : isupper c = of_bool (Table.isupper c).
Proof.
  unfold isupper, Table.isupper, Table.between. chars.
  rewrite range_check by (trivial; lia). f_equal. zbool.
Qed.

Lemma islower_range : islower c = of_bool (Table.islower c).
Proof.
  unfold islower, Table.islower, Table.between. chars.
  rewrite range_check by (trivial; lia). f_equal. zbool.
Qed.

Lemma isdigit_range : isdigit c = of_bool (Table.isdigit c).
Proof.
  unfold isdigit, Table.isdigit, Table.between. chars.
  rewrite range_check by (trivial; lia). f_equal. zbool.
Qed.

Lemma isprint_range : isprint c = of_bool (Table.isprint c).
Proof.
  unfold isprint, Table.isprint, Table.between.
  rewrite range_check by (trivial; lia). f_equal. zbool.
Qed.

Lemma isgraph_range : isgraph c = of_bool (Table.isgraph c).
Proof.
  unfold isgraph, Table.isgraph, Table.between.
  rewrite range_check by (trivial; lia). f_equal. zbool.
Qed.

Lemma isalpha_range : isalpha c = of_bool (Table.isalpha c).
Proof.
  unfold isalpha, Table.isalpha, Table.isupper, Table.islower,
    Table.between. chars.
  rewrite folded_range_check by (trivial; lia). f_equal. zbool.
Qed.

Lemma isspace_range : isspace c = of_bool (Table.isspace c).
Proof.
  unfold isspace, Table.isspace, Table.between. chars.
  rewrite range_check by (trivial; lia).
  unfold eq. rewrite log_or_of_bool. f_equal. zbool.
Qed.

Lemma isblank_range : isblank c = of_bool (Table.isblank c).
Proof.
  unfold isblank, Table.isblank. chars.
  unfold eq. rewrite log_or_of_bool. reflexivity.
Qed.

Lemma isxdigit_range : isxdigit c = of_bool (Table.isxdigit c).
Proof.
  unfold isxdigit. rewrite isdigit_range.
  unfold Table.isxdigit, Table.isdigit, Table.between. chars.
  rewrite folded_range_check by (trivial; lia).
  rewrite log_or_of_bool. f_equal. zbool.
Qed.

Lemma isalnum_range : isalnum c = of_bool (Table.isalnum c).
Proof.
  unfold isalnum, Table.isalnum. rewrite isalpha_range, isdigit_range.
  apply log_or_of_bool.
Qed.

Lemma ispunct_range : ispunct c = of_bool (Table.ispunct c).
Proof.
  unfold ispunct, Table.ispunct. rewrite isgraph_range, isalnum_range.
  now rewrite log_not_of_bool, log_and_of_bool.
Qed.

Lemma isascii_range : isascii c = of_bool (Table.isascii c).
Proof.
  unfold isascii, Table.isascii, Table.between.
  rewrite land_not_0x7f. unfold log_not, truthy. f_equal. zbool.
Qed.

Lemma iscntrl_range : iscntrl c = of_bool (Table.iscntrl_nonneg c).
Proof.
  unfold iscntrl, Table.iscntrl_nonneg, Table.between.
  unfold is_int, INT_MIN, INT_MAX in c_int.
  unfold lt, eq. rewrite log_or_of_bool. f_equal.
  destruct (Z.ltb_spec c 0) as [Hneg | Hpos].
  - rewrite (to_unsigned_neg c c_int Hneg). unfold UINT_MOD. zbool.
  - rewrite (to_unsigned_nonneg c c_int Hpos). zbool.
Qed.

Lemma tolower_closed : tolower c = if Table.isupper c then c + 32 else c.
Proof.
  unfold tolower. rewrite isupper_range.
  destruct (Table.isupper c) eqn:Hup; [| reflexivity].
  cbn. rewrite lor_32, testbit_5.
  revert Hup. unfold Table.isupper, Table.between. chars. zbool.
Qed.

Lemma toupper_closed : toupper c = if Table.islower c then c - 32 else c.
Proof.
  unfold toupper. rewrite islower_range.
  destruct (Table.islower c) eqn:Hlow; [| reflexivity].
  cbn. rewrite land_0x5f.
  revert Hlow. unfold Table.islower, Table.between. chars. zbool.
Qed.

End ClosedForms.

Lemma classify_range (p : predicate) (c : Z) :
  is_int c -> classify p c = of_bool (Table.range_nonneg_cntrl p c).
Proof.
  intros Hc. destruct p; cbn [classify Table.range_nonneg_cntrl Table.range].
  - now apply isascii_range.
  - now apply isblank_range.
  - now apply isupper_range.
  - now apply islower_range.
  - now apply isalpha_range.
  - now apply isdigit_range.
  - now apply isalnum_range.
  - now apply isspace_range.
  - now apply isxdigit_range.
  - now apply isgraph_range.
  - now apply isprint_range.
  - now apply ispunct_range.
  - now apply iscntrl_range.
Qed.

(** On non-negative inputs the table's own row for [iscntrl] is the one
    the code computes. *)
Lemma table_agrees_on_nonneg (p : predicate) (c : Z) :
  0 <= c -> Table.range p c = Table.range_nonneg_cntrl p c.
Proof.
  intros Hc. destruct p; try reflexivity.
  cbn [Table.range Table.range_nonneg_cntrl].
  unfold Table.iscntrl, Table.iscntrl_nonneg, Table.between. zbool.
Qed.

Lemma classify_0_or_1 (p : predicate) (c : Z) :
  is_int c -> classify p c = 0 \/ classify p c = 1.
Proof.
  intros Hc. rewrite (classify_range p c Hc).
  destruct (Table.range_nonneg_cntrl p c); [right | left]; reflexivity.
Qed.

Lemma byte_is_int (c : Z) : -1 <= c <= 255 -> is_int c.
Proof. unfold is_int, INT_MIN, INT_MAX. lia. Qed.

Lemma letter_is_int (c : Z) : is_letter c -> is_int c.
Proof. unfold is_letter, is_int, INT_MIN, INT_MAX. chars. lia. Qed.

Lemma tolower_is_int (c : Z) : is_int c -> is_int (tolower c).
Proof.
  intros Hc. rewrite (tolower_closed c Hc).
  destruct (Table.isupper c) eqn:Hup; [| exact Hc].
  revert Hup. unfold Table.isupper, Table.between, is_int, INT_MIN, INT_MAX.
  chars. zbool.
Qed.

Lemma toupper_is_int (c : Z) : is_int c -> is_int (toupper c).
Proof.
  intros Hc. rewrite (toupper_closed c Hc).
  destruct (Table.islower c) eqn:Hlow; [| exact Hc].
  revert Hlow. unfold Table.islower, Table.between, is_int, INT_MIN, INT_MAX.
  chars. zbool.
Qed.

Lemma toascii_is_int (c : Z) : is_int (toascii c).
Proof.
  unfold toascii, is_int, INT_MIN, INT_MAX. rewrite land_0x7f. euclid.
Qed.

Lemma all_functions_complete (f : function) : In f all_functions.
Proof. destruct f as [[] | []]; cbn; tauto. Qed.

Lemma all_functions_count : length all_functions = 16%nat.
Proof. reflexivity. Qed.

(** ** The checked functions run to the values of the plain ones *)

Lemma lor_32_is_unsigned (u : Z) : is_unsigned u -> is_unsigned (Z.lor u 32).
Proof.
  unfold is_unsigned, UINT_MOD. intros Hu.
  rewrite lor_32, testbit_5.
  destruct (Z.leb_spec 32 (u mod 64)); euclid.
Qed.

Lemma lor_32_is_int (c : Z) : is_int c -> is_int (Z.lor c 32).
Proof.
  unfold is_int, INT_MIN, INT_MAX. intros Hc.
  rewrite lor_32, testbit_5.
  destruct (Z.leb_spec 32 (c mod 64)); euclid.
Qed.

Lemma land_0x5f_is_int (c : Z) : is_int (Z.land c 0x5f).
Proof.
  unfold is_int, INT_MIN, INT_MAX. rewrite land_0x5f.
  destruct (Z.leb_spec 32 (c mod 64)); euclid.
Qed.

Lemma land_not_0x7f_is_int (c : Z) :
  is_int c -> is_int (Z.land c (Z.lnot 0x7f)).
Proof.
  unfold is_int, INT_MIN, INT_MAX. intros Hc.
  rewrite land_not_0x7f. euclid.
Qed.

Lemma usub_is_unsigned (a b : Z) : is_unsigned (usub a b).
Proof.
  unfold is_unsigned, usub, UINT_MOD. apply Z.mod_pos_bound; reflexivity.
Qed.

Lemma of_bool_is_int (b : bool) : is_int (of_bool b).
Proof. unfold is_int, INT_MIN, INT_MAX. destruct b; cbn; lia. Qed.

Lemma in_int_true (a : Z) : is_int a -> Checked.in_int a = true.
Proof.
  unfold is_int, Checked.in_int. intros [Hlo Hhi].
  apply andb_true_iff; split; now apply Z.leb_le.
Qed.

Lemma in_unsigned_true (a : Z) :
  is_unsigned a -> Checked.in_unsigned a = true.
Proof.
  unfold is_unsigned, Checked.in_unsigned. intros [Hlo Hhi].
  apply andb_true_iff; split; [now apply Z.leb_le | now apply Z.ltb_lt].
Qed.

(** Side conditions: a value is in the range of its type. *)
Ltac in_range :=
  first
    [ assumption
    | apply to_unsigned_is_unsigned
    | apply usub_is_unsigned
    | apply of_bool_is_int
    | apply lor_32_is_unsigned; in_range
    | apply lor_32_is_int; in_range
    | apply land_0x5f_is_int
    | apply toascii_is_int
    | apply land_not_0x7f_is_int; in_range
    | unfold is_int, INT_MIN, INT_MAX; chars; cbn; lia ].

Section Runs.

Context {world : Type}.
Variable w : world.

Lemma checked_ok (ok : bool) (v : Z) :
  ok = true -> Checked.checked ok v w = Some (v, w).
Proof. intros ->. reflexivity. Qed.

Lemma int_val_ok (a : Z) : is_int a -> Checked.int_val a w = Some (a, w).
Proof. intros Ha. apply checked_ok. now apply in_int_true. Qed.

Lemma cast_ok (a : Z) :
  is_int a -> Checked.cast a w = Some (to_unsigned a, w).
Proof. intros Ha. apply checked_ok. now apply in_int_true. Qed.

Lemma u_sub_ok (a b : Z) :
  is_unsigned a -> is_unsigned b ->
  Checked.u_sub a b w = Some (usub a b, w).
Proof.
  intros Ha Hb. apply checked_ok.
  rewrite !in_unsigned_true; trivial. apply usub_is_unsigned.
Qed.

Lemma u_or_ok (a b : Z) :
  is_unsigned a -> is_unsigned b -> is_unsigned (Z.lor a b) ->
  Checked.u_or a b w = Some (Z.lor a b, w).
Proof.
  intros Ha Hb Hr. apply checked_ok. now rewrite !in_unsigned_true.
Qed.

Lemma u_lt_ok (a b : Z) :
  is_unsigned a -> is_unsigned b ->
  Checked.u_lt a b w = Some (lt a b, w).
Proof.
  intros Ha Hb. apply checked_ok. now rewrite !in_unsigned_true.
Qed.

Lemma i_eq_ok (a b : Z) :
  is_int a -> is_int b -> Checked.i_eq a b w = Some (eq a b, w).
Proof. intros Ha Hb. apply checked_ok. now rewrite !in_int_true. Qed.

Lemma i_or_ok (a b : Z) :
  is_int a -> is_int b -> is_int (Z.lor a b) ->
  Checked.i_or a b w = Some (Z.lor a b, w).
Proof. intros Ha Hb Hr. apply checked_ok. now rewrite !in_int_true. Qed.

Lemma i_and_ok (a b : Z) :
  is_int a -> is_int b -> is_int (Z.land a b) ->
  Checked.i_and a b w = Some (Z.land a b, w).
Proof. intros Ha Hb Hr. apply checked_ok. now rewrite !in_int_true. Qed.

Lemma i_not_ok (a : Z) :
  is_int a -> is_int (Z.lnot a) ->
  Checked.i_not a w = Some (Z.lnot a, w).
Proof. intros Ha Hr. apply checked_ok. now rewrite !in_int_true. Qed.

Lemma l_not_ok (a : Z) :
  is_int a -> Checked.l_not a w = Some (log_not a, w).
Proof. intros Ha. apply checked_ok. now apply in_int_true. Qed.

Lemma or_else_ok (ma mb : Checked.comp Z) (a b : Z) :
  ma w = Some (a, w) -> mb w = Some (b, w) ->
  Checked.or_else ma mb w = Some (log_or a b, w).
Proof.
  intros Ha Hb. unfold Checked.or_else, Checked.bind, log_or. rewrite Ha.
  destruct (truthy a); cbn [orb]; [reflexivity |].
  rewrite Hb. reflexivity.
Qed.

Lemma and_then_ok (ma mb : Checked.comp Z) (a b : Z) :
  ma w = Some (a, w) -> mb w = Some (b, w) ->
  Checked.and_then ma mb w = Some (log_and a b, w).
Proof.
  intros Ha Hb. unfold Checked.and_then, Checked.bind, log_and. rewrite Ha.
  destruct (truthy a); cbn [andb]; [| reflexivity].
  rewrite Hb. reflexivity.
Qed.

(** Run the operations of a straight-line body one after the other. *)
Ltac run :=
  unfold Checked.bind;
  repeat (first
            [ rewrite cast_ok by in_range
            | rewrite u_sub_ok by in_range
            | rewrite u_or_ok by in_range
            | rewrite u_lt_ok by in_range
            | rewrite i_not_ok by in_range
            | rewrite i_and_ok by in_range
            | rewrite l_not_ok by in_range ];
          cbv beta iota);
  try reflexivity.

Variable c : Z.
Hypothesis c_int : is_int c.

Lemma isascii_ok : Checked.isascii c w = Some (isascii c, w).
Proof. unfold Checked.isascii. run. Qed.

Lemma isblank_ok : Checked.isblank c w = Some (isblank c, w).
Proof. apply or_else_ok; apply i_eq_ok; in_range. Qed.

Lemma isalpha_ok : Checked.isalpha c w = Some (isalpha c, w).
Proof. unfold Checked.isalpha. run. Qed.

Lemma isdigit_ok : Checked.isdigit c w = Some (isdigit c, w).
Proof. unfold Checked.isdigit. run. Qed.

Lemma isalnum_ok : Checked.isalnum c w = Some (isalnum c, w).
Proof. apply or_else_ok; [apply isalpha_ok | apply isdigit_ok]. Qed.

Lemma isspace_ok : Checked.isspace c w = Some (isspace c, w).
Proof. apply or_else_ok; [apply i_eq_ok; in_range | run]. Qed.

Lemma isupper_ok : Checked.isupper c w = Some (isupper c, w).
Proof. unfold Checked.isupper. run. Qed.

Lemma islower_ok : Checked.islower c w = Some (islower c, w).
Proof. unfold Checked.islower. run. Qed.

Lemma tolower_ok : Checked.tolower c w = Some (tolower c, w).
Proof.
  unfold Checked.tolower, Checked.bind, tolower. rewrite isupper_ok.
  destruct (truthy (isupper c));
    [apply i_or_ok; in_range | apply int_val_ok; in_range].
Qed.

Lemma toupper_ok : Checked.toupper c w = Some (toupper c, w).
Proof.
  unfold Checked.toupper, Checked.bind, toupper. rewrite islower_ok.
  destruct (truthy (islower c));
    [apply i_and_ok; in_range | apply int_val_ok; in_range].
Qed.

Lemma toascii_ok : Checked.toascii c w = Some (toascii c, w).
Proof. apply i_and_ok; in_range. Qed.

Lemma isprint_ok : Checked.isprint c w = Some (isprint c, w).
Proof. unfold Checked.isprint. run. Qed.

Lemma isgraph_ok : Checked.isgraph c w = Some (isgraph c, w).
Proof. unfold Checked.isgraph. run. Qed.

Lemma ispunct_ok : Checked.ispunct c w = Some (ispunct c, w).
Proof.
  apply and_then_ok; [apply isgraph_ok |].
  unfold Checked.bind. rewrite isalnum_ok. apply l_not_ok.
  unfold isalnum, log_or. in_range.
Qed.

Lemma iscntrl_ok : Checked.iscntrl c w = Some (iscntrl c, w).
Proof. apply or_else_ok; [run | apply i_eq_ok; in_range]. Qed.

Lemma isxdigit_ok : Checked.isxdigit c w = Some (isxdigit c, w).
Proof. apply or_else_ok; [apply isdigit_ok | run]. Qed.

Lemma call_ok (f : function) :
  Checked.call f c w = Some (call f c, w).
Proof.
  destruct f as [[] | []]; cbn [Checked.call Checked.classify
    Checked.convert call classify convert].
  - apply isascii_ok.
  - apply isblank_ok.
  - apply isupper_ok.
  - apply islower_ok.
  - apply isalpha_ok.
  - apply isdigit_ok.
  - apply isalnum_ok.
  - apply isspace_ok.
  - apply isxdigit_ok.
  - apply isgraph_ok.
  - apply isprint_ok.
  - apply ispunct_ok.
  - apply iscntrl_ok.
  - apply tolower_ok.
  - apply toupper_ok.
  - apply toascii_ok.
Qed.

End Runs.

Lemma call_is_int (f : function) (c : Z) : is_int c -> is_int (call f c).
Proof.
  intros Hc. destruct f as [p | []]; cbn [call convert].
  - destruct (classify_0_or_1 p c Hc) as [-> | ->];
      unfold is_int, INT_MIN, INT_MAX; lia.
  - now apply tolower_is_int.
  - now apply toupper_is_int.
  - apply toascii_is_int.
Qed.

(** * Properties of the specification *)

(** ** The contract table over -1..255 *)

(** C1, as stated, fails: the table's row for [iscntrl] counts negative
    inputs as control characters, so it puts -1 in the range, while
    [iscntrl (-1)] returns zero. *)
Lemma table_iscntrl_differs_at_minus_one :
  -1 <= -1 <= 255 /\
  Table.range Iscntrl (-1) = true /\
  classify Iscntrl (-1) = 0.
Proof. repeat split; discriminate. Qed.

(** C1 (amended): for every [c] in -1..255, each of the twelve predicates
    other than [iscntrl] returns nonzero exactly when [c] lies in the range
    the table gives for it, and zero otherwise; [iscntrl] returns nonzero
    exactly when [0 <= c < 0x20] or [c = 0x7f], and zero otherwise. *)
Theorem predicates_match_table (p : predicate) (c : Z) :
  -1 <= c <= 255 ->
  (classify p c <> 0 <-> Table.range_nonneg_cntrl p c = true) /\
  (classify p c = 0 <-> Table.range_nonneg_cntrl p c = false).
Proof.
  intros Hc. rewrite (classify_range p c (byte_is_int c Hc)).
  split; [apply of_bool_nonzero | apply of_bool_zero].
Qed.

Lemma predicates_match_table_witness :
  -1 <= -1 <= 255 /\
  (classify Iscntrl (-1) <> 0 <->
   Table.range_nonneg_cntrl Iscntrl (-1) = true).
Proof.
  split; [lia |].
  apply (predicates_match_table Iscntrl (-1)). lia.
Defined.

(** ** Control characters *)

(** C2, as stated, fails: -1 is negative (and below 0x20), yet
    [iscntrl (-1)] is zero. *)
Lemma iscntrl_minus_one_is_zero :
  is_int (-1) /\ -1 < 0 /\ -1 < 0x20 /\ iscntrl (-1) = 0.
Proof. unfold is_int, INT_MIN, INT_MAX. repeat split; lia. Qed.

(** C2 (amended): for every [int] [c], [iscntrl c] is nonzero if and only
    if [0 <= c < 0x20] or [c = 0x7f]; the unsigned comparison sends every
    negative input above the bound, so [iscntrl c] is zero for all
    [c < 0]. *)
Theorem iscntrl_nonneg_range (c : Z) :
  is_int c ->
  (iscntrl c <> 0 <-> 0 <= c < 0x20 \/ c = 0x7f) /\
  (c < 0 -> iscntrl c = 0).
Proof.
  intros Hc. rewrite (iscntrl_range c Hc).
  unfold Table.iscntrl_nonneg, Table.between. split.
  - rewrite of_bool_nonzero. zbool; split; intros H; try lia; discriminate.
  - intros Hneg. zbool.
Qed.

Lemma iscntrl_nonneg_range_witness :
  is_int 0x7f /\ (iscntrl 0x7f <> 0 <-> 0 <= 0x7f < 0x20 \/ 0x7f = 0x7f).
Proof.
  assert (H : is_int 0x7f) by (unfold is_int, INT_MIN, INT_MAX; lia).
  split; [exact H |].
  apply (iscntrl_nonneg_range 0x7f H).
Defined.

(** ** Totality *)

(** C3, as stated, fails on its count: the file defines sixteen functions,
    all different, and not seventeen. *)
Lemma file_defines_sixteen_functions :
  length all_functions = 16%nat /\
  length all_functions <> 17%nat /\
  NoDup all_functions.
Proof.
  split; [reflexivity |]. split; [discriminate |].
  unfold all_functions, all_predicates. cbn [map app].
  repeat (constructor;
          [cbn [In]; intros H;
           repeat (destruct H as [H | H]; [discriminate H |]); exact H |]).
  constructor.
Qed.

(** C3 (amended): for every [int] input [c], negative values and values
    above 255 included, each of the sixteen functions of the file, run with
    every operation checked and in any world [w],
    - yields a result: no operation is undefined and nothing fails;
    - the result is an [int], the value of the function at [c];
    - the world is left as it was found: there is no side effect;
    - called a second time with the same input, it yields the same result
      again. *)
Theorem functions_well_defined
  (world : Type) (w : world) (f : function) (c : Z) :
  In f all_functions -> is_int c ->
  Checked.call f c w = Some (call f c, w) /\
  is_int (call f c) /\
  Checked.call_twice f c w = Some ((call f c, call f c), w).
Proof.
  intros _ Hc. pose proof (call_ok w c Hc f) as Hrun.
  split; [exact Hrun |]. split; [now apply call_is_int |].
  unfold Checked.call_twice, Checked.bind. rewrite Hrun, Hrun. reflexivity.
Qed.

Lemma functions_well_defined_witness :
  In (Trans Tolower) all_functions /\ is_int (-1) /\
  Checked.call (Trans Tolower) (-1) tt = Some (call (Trans Tolower) (-1), tt).
Proof.
  assert (Hf : In (Trans Tolower) all_functions)
    by (cbn; repeat (try (left; reflexivity); right)).
  assert (H : is_int (-1)) by (unfold is_int, INT_MIN, INT_MAX; lia).
  split; [exact Hf |]. split; [exact H |].
  apply (functions_well_defined unit tt (Trans Tolower) (-1) Hf H).
Defined.

(** ** Letters *)

(** C4: for every [int] [c], [isalpha c] is nonzero if and only if [c] is
    in 0x41..0x5a or in 0x61..0x7a. *)
Theorem isalpha_exact (c : Z) :
  is_int c ->
  (isalpha c <> 0 <-> 0x41 <= c <= 0x5a \/ 0x61 <= c <= 0x7a).
Proof.
  intros Hc. rewrite (isalpha_range c Hc), of_bool_nonzero.
  unfold Table.isalpha, Table.isupper, Table.islower, Table.between. chars.
  zbool; split; intros H; try lia; discriminate.
Qed.

Lemma isalpha_exact_witness :
  is_int 0x5a /\ (isalpha 0x5a <> 0 <-> 0x41 <= 0x5a <= 0x5a \/ 0x61 <= 0x5a <= 0x7a).
Proof.
  assert (H : is_int 0x5a) by (unfold is_int, INT_MIN, INT_MAX; lia).
  split; [exact H |].
  apply (isalpha_exact 0x5a H).
Defined.

(** ** Case conversion *)

Ltac table_ranges :=
  unfold Table.isupper, Table.islower, Table.between; chars.

(** Split on the case of [c], then decide the comparisons that remain. *)
Ltac on_case c :=
  let Hup := fresh "Hup" in
  let Hlow := fresh "Hlow" in
  destruct (Table.isupper c) eqn:Hup;
  destruct (Table.islower c) eqn:Hlow;
  revert Hup Hlow; table_ranges; zbool.

(** C5: for every ASCII letter [c], converting to one case and then to the
    other agrees with converting directly. *)
Theorem case_round_trip (c : Z) :
  is_letter c ->
  tolower (toupper c) = tolower c /\ toupper (tolower c) = toupper c.
Proof.
  intros Hl. pose proof (letter_is_int c Hl) as Hc.
  rewrite (tolower_closed _ (toupper_is_int c Hc)).
  rewrite (toupper_closed _ (tolower_is_int c Hc)).
  rewrite (tolower_closed c Hc), (toupper_closed c Hc).
  revert Hl. unfold is_letter. chars. intros Hl.
  split; on_case c.
Qed.

Lemma case_round_trip_witness :
  is_letter (chr "q") /\
  tolower (toupper (chr "q")) = tolower (chr "q") /\
  toupper (tolower (chr "q")) = toupper (chr "q").
Proof.
  assert (H : is_letter (chr "q")) by (right; split; discriminate).
  split; [exact H |].
  apply (case_round_trip (chr "q") H).
Defined.

(** C6: [tolower] is the identity wherever [isupper] is zero, and
    [toupper] is the identity wherever [islower] is zero. *)
Theorem conversion_identity_off_source_case (c : Z) :
  (isupper c = 0 -> tolower c = c) /\ (islower c = 0 -> toupper c = c).
Proof.
  unfold tolower, toupper. split; intros ->; reflexivity.
Qed.

Lemma conversion_identity_off_source_case_witness :
  (isupper (chr "5") = 0 /\ tolower (chr "5") = chr "5") /\
  (islower (chr "5") = 0 /\ toupper (chr "5") = chr "5").
Proof.
  destruct (conversion_identity_off_source_case (chr "5")) as [Hl Hu].
  split; (split; [reflexivity |]).
  - apply Hl. reflexivity.
  - apply Hu. reflexivity.
Defined.

(** C7: for every [c] in 0..255, [isascii c] is nonzero if and only if
    [toascii c = c]. *)
Theorem isascii_iff_toascii_fixed (c : Z) :
  0 <= c <= 255 ->
  (isascii c <> 0 <-> toascii c = c).
Proof.
  intros Hc.
  rewrite (isascii_range c), of_bool_nonzero.
  unfold Table.isascii, Table.between, toascii. rewrite land_0x7f.
  zbool; split; intros H; try euclid; discriminate.
Qed.

Lemma isascii_iff_toascii_fixed_witness :
  0 <= 200 <= 255 /\ (isascii 200 <> 0 <-> toascii 200 = 200).
Proof.
  split; [lia |].
  apply (isascii_iff_toascii_fixed 200). lia.
Defined.

(** C8: for every [int] [c], the result of [tolower] is never an upper-case
    letter and the result of [toupper] is never a lower-case letter. *)
Theorem conversion_leaves_source_case (c : Z) :
  is_int c ->
  isupper (tolower c) = 0 /\ islower (toupper c) = 0.
Proof.
  intros Hc.
  rewrite (isupper_range _ (tolower_is_int c Hc)).
  rewrite (islower_range _ (toupper_is_int c Hc)).
  rewrite (tolower_closed c Hc), (toupper_closed c Hc).
  rewrite !of_bool_zero. split; on_case c.
Qed.

Lemma conversion_leaves_source_case_witness :
  is_int (chr "G") /\
  isupper (tolower (chr "G")) = 0 /\ islower (toupper (chr "G")) = 0.
Proof.
  assert (H : is_int (chr "G")) by (split; discriminate).
  split; [exact H |].
  apply (conversion_leaves_source_case (chr "G") H).
Defined.

(** C9: whenever [isblank c] is nonzero, [isspace c] is nonzero. *)
Theorem blank_is_space (c : Z) :
  isblank c <> 0 -> isspace c <> 0.
Proof.
  unfold isblank, isspace, eq, lt. rewrite !log_or_of_bool, !of_bool_nonzero.
  chars. intros H. apply orb_true_iff in H as [H | H].
  - rewrite H. reflexivity.
  - apply Z.eqb_eq in H. subst c. reflexivity.
Qed.

Lemma blank_is_space_witness :
  isblank (chr "009") <> 0 /\ isspace (chr "009") <> 0.
Proof.
  assert (H : isblank (chr "009") <> 0) by discriminate.
  split; [exact H |].
  apply (blank_is_space (chr "009") H).
Defined.

(** C10: for every [int] [c], [tolower] and [toupper] are idempotent. *)
Theorem conversion_idempotent (c : Z) :
  is_int c ->
  tolower (tolower c) = tolower c /\ toupper (toupper c) = toupper c.
Proof.
  intros Hc.
  rewrite (tolower_closed _ (tolower_is_int c Hc)).
  rewrite (toupper_closed _ (toupper_is_int c Hc)).
  rewrite (tolower_closed c Hc), (toupper_closed c Hc).
  split; on_case c.
Qed.

Lemma conversion_idempotent_witness :
  is_int (chr "M") /\
  tolower (tolower (chr "M")) = tolower (chr "M") /\
  toupper (toupper (chr "M")) = toupper (chr "M").
Proof.
  assert (H : is_int (chr "M")) by (split; discriminate).
  split; [exact H |].
  apply (conversion_idempotent (chr "M") H).
Defined.


(** * Further properties of the code *)

(** ** Every predicate as a range, on the whole of [int] *)

Ltac table_all :=
  unfold Table.ispunct, Table.isalnum, Table.isxdigit, Table.isalpha,
    Table.isspace, Table.isblank, Table.isascii, Table.isdigit,
    Table.isupper, Table.islower, Table.isgraph, Table.isprint,
    Table.iscntrl_nonneg, Table.between;
  chars.

(** Decide a statement built from comparisons of integers and their
    boolean tests. *)
Ltac zprop :=
  repeat match goal with
    | |- context [?a <=? ?b] => destruct (Z.leb_spec a b)
    | |- context [?a <? ?b] => destruct (Z.ltb_spec a b)
    | |- context [?a =? ?b] => destruct (Z.eqb_spec a b)
    end;
  cbn [andb orb negb];
  first [ lia | intuition (first [congruence | lia]) ].

Lemma class_ranges (c : Z) :
  is_int c ->
  (isascii c <> 0 <-> 0 <= c <= 0x7f) /\
  (isblank c <> 0 <-> c = 0x20 \/ c = 0x09) /\
  (isalpha c <> 0 <-> 0x41 <= c <= 0x5a \/ 0x61 <= c <= 0x7a) /\
  (isdigit c <> 0 <-> 0x30 <= c <= 0x39) /\
  (isalnum c <> 0 <->
     0x30 <= c <= 0x39 \/ 0x41 <= c <= 0x5a \/ 0x61 <= c <= 0x7a) /\
  (isspace c <> 0 <-> c = 0x20 \/ 0x09 <= c <= 0x0d) /\
  (isupper c <> 0 <-> 0x41 <= c <= 0x5a) /\
  (islower c <> 0 <-> 0x61 <= c <= 0x7a) /\
  (isprint c <> 0 <-> 0x20 <= c <= 0x7e) /\
  (isgraph c <> 0 <-> 0x21 <= c <= 0x7e) /\
  (ispunct c <> 0 <->
     0x21 <= c <= 0x2f \/ 0x3a <= c <= 0x40 \/
     0x5b <= c <= 0x60 \/ 0x7b <= c <= 0x7e) /\
  (iscntrl c <> 0 <-> 0 <= c <= 0x1f \/ c = 0x7f) /\
  (isxdigit c <> 0 <->
     0x30 <= c <= 0x39 \/ 0x41 <= c <= 0x46 \/ 0x61 <= c <= 0x66).
Proof.
  intros Hc.
  rewrite (isascii_range c), (isblank_range c), (isalpha_range c Hc),
    (isdigit_range c Hc), (isalnum_range c Hc), (isspace_range c Hc),
    (isupper_range c Hc), (islower_range c Hc), (isprint_range c Hc),
    (isgraph_range c Hc), (ispunct_range c Hc), (iscntrl_range c Hc),
    (isxdigit_range c Hc).
  rewrite !of_bool_nonzero. table_all.
  repeat split; zprop.
Qed.

Lemma classify_zero_iff (p : predicate) (c : Z) :
  is_int c -> (classify p c = 0 <-> ~ classify p c <> 0).
Proof. intros Hc. destruct (classify_0_or_1 p c Hc); lia. Qed.

Lemma conversion_cases (c : Z) :
  is_int c ->
  is_int (tolower c) /\ is_int (toupper c) /\
  (0x41 <= c <= 0x5a /\ tolower c = c + 32 \/
   ~ 0x41 <= c <= 0x5a /\ tolower c = c) /\
  (0x61 <= c <= 0x7a /\ toupper c = c - 32 \/
   ~ 0x61 <= c <= 0x7a /\ toupper c = c).
Proof.
  intros Hc.
  split; [now apply tolower_is_int |].
  split; [now apply toupper_is_int |].
  rewrite (tolower_closed c Hc), (toupper_closed c Hc).
  table_all. split; zprop.
Qed.

Section Ranges.

Variable c : Z.
Hypothesis c_int : is_int c.

Lemma isascii_nz :
  isascii c <> 0 <->
  0 <= c <= 0x7f.
Proof. apply (class_ranges c c_int). Qed.

Lemma isblank_nz :
  isblank c <> 0 <->
  c = 0x20 \/ c = 0x09.
Proof. apply (class_ranges c c_int). Qed.

Lemma isalpha_nz :
  isalpha c <> 0 <->
  0x41 <= c <= 0x5a \/ 0x61 <= c <= 0x7a.
Proof. apply (class_ranges c c_int). Qed.

Lemma isdigit_nz :
  isdigit c <> 0 <->
  0x30 <= c <= 0x39.
Proof. apply (class_ranges c c_int). Qed.

Lemma isalnum_nz :
  isalnum c <> 0 <->
  0x30 <= c <= 0x39 \/ 0x41 <= c <= 0x5a \/ 0x61 <= c <= 0x7a.
Proof. apply (class_ranges c c_int). Qed.

Lemma isspace_nz :
  isspace c <> 0 <->
  c = 0x20 \/ 0x09 <= c <= 0x0d.
Proof. apply (class_ranges c c_int). Qed.

Lemma isupper_nz :
  isupper c <> 0 <->
  0x41 <= c <= 0x5a.
Proof. apply (class_ranges c c_int). Qed.

Lemma islower_nz :
  islower c <> 0 <->
  0x61 <= c <= 0x7a.
Proof. apply (class_ranges c c_int). Qed.

Lemma isprint_nz :
  isprint c <> 0 <->
  0x20 <= c <= 0x7e.
Proof. apply (class_ranges c c_int). Qed.

Lemma isgraph_nz :
  isgraph c <> 0 <->
  0x21 <= c <= 0x7e.
Proof. apply (class_ranges c c_int). Qed.

Lemma ispunct_nz :
  ispunct c <> 0 <->
  0x21 <= c <= 0x2f \/ 0x3a <= c <= 0x40 \/
   0x5b <= c <= 0x60 \/ 0x7b <= c <= 0x7e.
Proof. apply (class_ranges c c_int). Qed.

Lemma iscntrl_nz :
  iscntrl c <> 0 <->
  0 <= c <= 0x1f \/ c = 0x7f.
Proof. apply (class_ranges c c_int). Qed.

Lemma isxdigit_nz :
  isxdigit c <> 0 <->
  0x30 <= c <= 0x39 \/ 0x41 <= c <= 0x46 \/ 0x61 <= c <= 0x66.
Proof. apply (class_ranges c c_int). Qed.

End Ranges.

(** ** The range idiom *)

(** X1: for an [int] [c] and a range [lo .. lo + w - 1] of non-negative
    [int]s, the single unsigned comparison [(unsigned)c - lo < w] is
    nonzero exactly when [lo <= c < lo + w]: inputs below [lo], negative
    ones included, wrap above the range. *)
Theorem unsigned_range_idiom (c lo w : Z) :
  is_int c -> 0 <= lo -> 0 <= w -> lo + w <= 2 ^ 31 ->
  (lt (usub (to_unsigned c) lo) w <> 0 <-> lo <= c < lo + w).
Proof.
  intros Hc Hlo Hw Hsum.
  rewrite (range_check c Hc lo w Hlo Hw Hsum), of_bool_nonzero.
  zprop.
Qed.

Lemma unsigned_range_idiom_witness :
  is_int (-1) /\
  (lt (usub (to_unsigned (-1)) 0x30) 10 <> 0 <-> 0x30 <= -1 < 0x30 + 10).
Proof.
  assert (H : is_int (-1)) by (unfold is_int, INT_MIN, INT_MAX; lia).
  split; [exact H |].
  apply (unsigned_range_idiom (-1) 0x30 10 H); lia.
Defined.

(** ** Classification on the whole of [int] *)

(** X2: for every [int] [c], not only -1..255, each predicate is nonzero
    exactly on its ASCII range: in particular the letters, digits and
    punctuation are the usual blocks and nothing outside them. *)
Theorem classification_exact (c : Z) :
  is_int c ->
  (isascii c <> 0 <-> 0 <= c <= 0x7f) /\
  (isblank c <> 0 <-> c = 0x20 \/ c = 0x09) /\
  (isalpha c <> 0 <-> 0x41 <= c <= 0x5a \/ 0x61 <= c <= 0x7a) /\
  (isdigit c <> 0 <-> 0x30 <= c <= 0x39) /\
  (isalnum c <> 0 <->
     0x30 <= c <= 0x39 \/ 0x41 <= c <= 0x5a \/ 0x61 <= c <= 0x7a) /\
  (isspace c <> 0 <-> c = 0x20 \/ 0x09 <= c <= 0x0d) /\
  (isupper c <> 0 <-> 0x41 <= c <= 0x5a) /\
  (islower c <> 0 <-> 0x61 <= c <= 0x7a) /\
  (isprint c <> 0 <-> 0x20 <= c <= 0x7e) /\
  (isgraph c <> 0 <-> 0x21 <= c <= 0x7e) /\
  (ispunct c <> 0 <->
     0x21 <= c <= 0x2f \/ 0x3a <= c <= 0x40 \/
     0x5b <= c <= 0x60 \/ 0x7b <= c <= 0x7e) /\
  (iscntrl c <> 0 <-> 0 <= c <= 0x1f \/ c = 0x7f) /\
  (isxdigit c <> 0 <->
     0x30 <= c <= 0x39 \/ 0x41 <= c <= 0x46 \/ 0x61 <= c <= 0x66).
Proof. exact (class_ranges c). Qed.

Lemma classification_exact_witness :
  is_int 0x141 /\ (isalpha 0x141 <> 0 <-> 0x41 <= 0x141 <= 0x5a \/ 0x61 <= 0x141 <= 0x7a).
Proof.
  assert (H : is_int 0x141) by (unfold is_int, INT_MIN, INT_MAX; lia).
  split; [exact H |].
  apply (classification_exact 0x141 H).
Defined.

(** Replace a hypothesis [f c <> 0] by the range of [f]. *)
Ltac range_of H Hc :=
  first [ apply (isascii_nz _ Hc) in H | apply (isblank_nz _ Hc) in H
        | apply (isupper_nz _ Hc) in H | apply (islower_nz _ Hc) in H
        | apply (isalpha_nz _ Hc) in H | apply (isdigit_nz _ Hc) in H
        | apply (isalnum_nz _ Hc) in H | apply (isspace_nz _ Hc) in H
        | apply (isxdigit_nz _ Hc) in H | apply (isgraph_nz _ Hc) in H
        | apply (isprint_nz _ Hc) in H | apply (ispunct_nz _ Hc) in H
        | apply (iscntrl_nz _ Hc) in H ].

(** Replace both sides of a goal [f x <> 0 <-> f y <> 0] by ranges. *)
Ltac range_both Hx Hy :=
  first [ rewrite (isascii_nz _ Hx), (isascii_nz _ Hy)
        | rewrite (isblank_nz _ Hx), (isblank_nz _ Hy)
        | rewrite (isalpha_nz _ Hx), (isalpha_nz _ Hy)
        | rewrite (isdigit_nz _ Hx), (isdigit_nz _ Hy)
        | rewrite (isalnum_nz _ Hx), (isalnum_nz _ Hy)
        | rewrite (isspace_nz _ Hx), (isspace_nz _ Hy)
        | rewrite (isxdigit_nz _ Hx), (isxdigit_nz _ Hy)
        | rewrite (isgraph_nz _ Hx), (isgraph_nz _ Hy)
        | rewrite (isprint_nz _ Hx), (isprint_nz _ Hy)
        | rewrite (ispunct_nz _ Hx), (ispunct_nz _ Hy)
        | rewrite (iscntrl_nz _ Hx), (iscntrl_nz _ Hy) ].

Lemma classify_eq_iff (p : predicate) (x y : Z) :
  is_int x -> is_int y ->
  (classify p x <> 0 <-> classify p y <> 0) ->
  classify p x = classify p y.
Proof.
  intros Hx Hy H.
  destruct (classify_0_or_1 p x Hx), (classify_0_or_1 p y Hy); lia.
Qed.

Lemma classify_nz_ascii (p : predicate) (c : Z) :
  is_int c -> classify p c <> 0 -> 0 <= c <= 0x7f.
Proof.
  intros Hc H. destruct p; cbn [classify] in H; range_of H Hc; lia.
Qed.

(** X3: an [int] outside 0..127 (a negative value such as the end-of-file
    marker -1, or a code above 0x7f) is rejected by all thirteen
    predicates and returned unchanged by [tolower] and [toupper]. *)
Theorem outside_ascii (c : Z) :
  is_int c -> c < 0 \/ 0x7f < c ->
  (forall p, classify p c = 0) /\ tolower c = c /\ toupper c = c.
Proof.
  intros Hc Hout. split.
  - intros p. apply (classify_zero_iff p c Hc). intros H.
    apply (classify_nz_ascii p c Hc) in H. lia.
  - destruct (conversion_cases c Hc) as (_ & _ & Hl & Hu). lia.
Qed.

Lemma outside_ascii_witness :
  is_int (-1) /\ (-1 < 0 \/ 0x7f < -1) /\
  (forall p, classify p (-1) = 0) /\ tolower (-1) = -1 /\ toupper (-1) = -1.
Proof.
  assert (H : is_int (-1)) by (unfold is_int, INT_MIN, INT_MAX; lia).
  assert (H' : -1 < 0 \/ 0x7f < -1) by (left; lia).
  split; [exact H |]. split; [exact H' |].
  apply (outside_ascii (-1) H H').
Defined.

(** ** How the classes relate *)

(** X4: [isalpha], computed by folding case, is nonzero exactly when
    [isupper] or [islower] is, and these two are never both nonzero. *)
Theorem alpha_is_upper_or_lower (c : Z) :
  is_int c ->
  (isalpha c <> 0 <-> isupper c <> 0 \/ islower c <> 0) /\
  ~ (isupper c <> 0 /\ islower c <> 0).
Proof.
  intros Hc.
  rewrite (isalpha_nz c Hc), (isupper_nz c Hc), (islower_nz c Hc). lia.
Qed.

Lemma alpha_is_upper_or_lower_witness :
  is_int (chr "k") /\
  (isalpha (chr "k") <> 0 <->
   isupper (chr "k") <> 0 \/ islower (chr "k") <> 0).
Proof.
  assert (H : is_int (chr "k")) by (split; discriminate).
  split; [exact H |].
  apply (alpha_is_upper_or_lower (chr "k") H).
Defined.

(** X5: the classes are nested: a digit is a hexadecimal digit, a
    hexadecimal digit is alphanumeric, an alphanumeric character is
    graphic, a graphic character is printable, and a printable character
    is ASCII. *)
Theorem class_chain (c : Z) :
  is_int c ->
  (isdigit c <> 0 -> isxdigit c <> 0) /\
  (isxdigit c <> 0 -> isalnum c <> 0) /\
  (isalnum c <> 0 -> isgraph c <> 0) /\
  (isgraph c <> 0 -> isprint c <> 0) /\
  (isprint c <> 0 -> isascii c <> 0).
Proof.
  intros Hc.
  rewrite (isdigit_nz c Hc), (isxdigit_nz c Hc), (isalnum_nz c Hc),
    (isgraph_nz c Hc), (isprint_nz c Hc), (isascii_nz c Hc).
  lia.
Qed.

Lemma class_chain_witness :
  is_int (chr "F") /\
  (isxdigit (chr "F") <> 0 -> isalnum (chr "F") <> 0).
Proof.
  assert (H : is_int (chr "F")) by (split; discriminate).
  split; [exact H |].
  apply (class_chain (chr "F") H).
Defined.

(** X6: the graphic characters are the printable ones other than the
    space. *)
Theorem graph_is_print_but_space (c : Z) :
  is_int c ->
  (isgraph c <> 0 <-> isprint c <> 0 /\ c <> chr " ").
Proof.
  intros Hc. rewrite (isgraph_nz c Hc), (isprint_nz c Hc). chars. lia.
Qed.

Lemma graph_is_print_but_space_witness :
  is_int (chr " ") /\
  (isgraph (chr " ") <> 0 <-> isprint (chr " ") <> 0 /\ chr " " <> chr " ").
Proof.
  assert (H : is_int (chr " ")) by (split; discriminate).
  split; [exact H |].
  apply (graph_is_print_but_space (chr " ") H).
Defined.

(** X7: the ASCII codes split into printable and control characters:
    [isascii] is nonzero exactly when [isprint] or [iscntrl] is, and these
    two are never both nonzero. *)
Theorem ascii_is_print_or_cntrl (c : Z) :
  is_int c ->
  (isascii c <> 0 <-> isprint c <> 0 \/ iscntrl c <> 0) /\
  ~ (isprint c <> 0 /\ iscntrl c <> 0).
Proof.
  intros Hc.
  rewrite (isascii_nz c Hc), (isprint_nz c Hc), (iscntrl_nz c Hc). lia.
Qed.

Lemma ascii_is_print_or_cntrl_witness :
  is_int 0x7f /\
  (isascii 0x7f <> 0 <-> isprint 0x7f <> 0 \/ iscntrl 0x7f <> 0).
Proof.
  assert (H : is_int 0x7f) by (split; discriminate).
  split; [exact H |].
  apply (ascii_is_print_or_cntrl 0x7f H).
Defined.

(** X8: the graphic characters split into punctuation and alphanumeric
    characters: [isgraph] is nonzero exactly when [ispunct] or [isalnum]
    is, and these two are never both nonzero. *)
Theorem graph_is_punct_or_alnum (c : Z) :
  is_int c ->
  (isgraph c <> 0 <-> ispunct c <> 0 \/ isalnum c <> 0) /\
  ~ (ispunct c <> 0 /\ isalnum c <> 0).
Proof.
  intros Hc.
  rewrite (isgraph_nz c Hc), (ispunct_nz c Hc), (isalnum_nz c Hc). lia.
Qed.

Lemma graph_is_punct_or_alnum_witness :
  is_int (chr "!") /\
  (isgraph (chr "!") <> 0 <->
   ispunct (chr "!") <> 0 \/ isalnum (chr "!") <> 0).
Proof.
  assert (H : is_int (chr "!")) by (split; discriminate).
  split; [exact H |].
  apply (graph_is_punct_or_alnum (chr "!") H).
Defined.

(** X9: a whitespace character is the space or a control character, and
    is never graphic. *)
Theorem space_is_blank_or_cntrl (c : Z) :
  is_int c -> isspace c <> 0 ->
  (c = chr " " \/ iscntrl c <> 0) /\ isgraph c = 0.
Proof.
  intros Hc Hs. apply (isspace_nz c Hc) in Hs.
  rewrite (iscntrl_nz c Hc).
  change (isgraph c) with (classify Isgraph c).
  rewrite (classify_zero_iff Isgraph c Hc). cbn [classify].
  rewrite (isgraph_nz c Hc). chars. lia.
Qed.

Lemma space_is_blank_or_cntrl_witness :
  is_int (chr "010") /\ isspace (chr "010") <> 0 /\
  (chr "010" = chr " " \/ iscntrl (chr "010") <> 0) /\
  isgraph (chr "010") = 0.
Proof.
  assert (H : is_int (chr "010")) by (split; discriminate).
  assert (H' : isspace (chr "010") <> 0) by discriminate.
  split; [exact H |]. split; [exact H' |].
  apply (space_is_blank_or_cntrl (chr "010") H H').
Defined.

(** ** Case conversion on the whole of [int] *)

(** X10: on an upper-case letter [tolower] adds 32 and gives a lower-case
    letter; on a lower-case letter [toupper] subtracts 32 and gives an
    upper-case letter. *)
Theorem conversion_shifts_by_32 (c : Z) :
  is_int c ->
  (isupper c <> 0 -> tolower c = c + 32 /\ islower (tolower c) <> 0) /\
  (islower c <> 0 -> toupper c = c - 32 /\ isupper (toupper c) <> 0).
Proof.
  intros Hc. destruct (conversion_cases c Hc) as (Hl & Hu & Hlo & Hup).
  rewrite (isupper_nz c Hc), (islower_nz c Hc).
  rewrite (islower_nz _ Hl), (isupper_nz _ Hu). lia.
Qed.

Lemma conversion_shifts_by_32_witness :
  is_int (chr "Q") /\
  (isupper (chr "Q") <> 0 ->
   tolower (chr "Q") = chr "Q" + 32 /\ islower (tolower (chr "Q")) <> 0).
Proof.
  assert (H : is_int (chr "Q")) by (split; discriminate).
  split; [exact H |].
  apply (conversion_shifts_by_32 (chr "Q") H).
Defined.

(** X11: the two conversions undo each other on letters:
    [toupper (tolower c) = c] for an upper-case [c] and
    [tolower (toupper c) = c] for a lower-case [c]. *)
Theorem conversion_inverse_on_letters (c : Z) :
  is_int c ->
  (isupper c <> 0 -> toupper (tolower c) = c) /\
  (islower c <> 0 -> tolower (toupper c) = c).
Proof.
  intros Hc. destruct (conversion_cases c Hc) as (Hl & Hu & Hlo & Hup).
  destruct (conversion_cases _ Hl) as (_ & _ & _ & Hup').
  destruct (conversion_cases _ Hu) as (_ & _ & Hlo' & _).
  rewrite (isupper_nz c Hc), (islower_nz c Hc). lia.
Qed.

Lemma conversion_inverse_on_letters_witness :
  is_int (chr "Z") /\
  (isupper (chr "Z") <> 0 -> toupper (tolower (chr "Z")) = chr "Z").
Proof.
  assert (H : is_int (chr "Z")) by (split; discriminate).
  split; [exact H |].
  apply (conversion_inverse_on_letters (chr "Z") H).
Defined.

(** X12: a conversion changes the case and nothing else: every predicate
    other than [isupper] and [islower] gives the same result before and
    after [tolower], and before and after [toupper]. *)
Theorem conversion_keeps_classes (p : predicate) (c : Z) :
  is_int c -> p <> Isupper -> p <> Islower ->
  classify p (tolower c) = classify p c /\
  classify p (toupper c) = classify p c.
Proof.
  intros Hc Hnu Hnl.
  destruct (conversion_cases c Hc) as (Hl & Hu & Hlo & Hup).
  split; apply classify_eq_iff; trivial;
    destruct p; try congruence; cbn [classify];
    first [ range_both Hl Hc | range_both Hu Hc ]; lia.
Qed.

Lemma conversion_keeps_classes_witness :
  is_int (chr "C") /\
  classify Isxdigit (tolower (chr "C")) = classify Isxdigit (chr "C") /\
  classify Isxdigit (toupper (chr "C")) = classify Isxdigit (chr "C").
Proof.
  assert (H : is_int (chr "C")) by (split; discriminate).
  split; [exact H |].
  apply (conversion_keeps_classes Isxdigit (chr "C") H); discriminate.
Defined.

(** X13: comparing two characters after [tolower] and comparing them
    after [toupper] give the same answer. *)
Theorem case_insensitive_equality (c d : Z) :
  is_int c -> is_int d ->
  (tolower c = tolower d <-> toupper c = toupper d).
Proof.
  intros Hc Hd.
  destruct (conversion_cases c Hc) as (_ & _ & Hlc & Huc).
  destruct (conversion_cases d Hd) as (_ & _ & Hld & Hud).
  lia.
Qed.

Lemma case_insensitive_equality_witness :
  is_int (chr "g") /\ is_int (chr "G") /\
  (tolower (chr "g") = tolower (chr "G") <->
   toupper (chr "g") = toupper (chr "G")).
Proof.
  assert (H : is_int (chr "g")) by (split; discriminate).
  assert (H' : is_int (chr "G")) by (split; discriminate).
  split; [exact H |]. split; [exact H' |].
  apply (case_insensitive_equality (chr "g") (chr "G") H H').
Defined.

(** X14: [tolower] and [toupper] agree exactly on the characters that are
    not letters; on a letter they differ. *)
Theorem conversions_agree_off_letters (c : Z) :
  is_int c ->
  (tolower c = toupper c <-> isalpha c = 0).
Proof.
  intros Hc. destruct (conversion_cases c Hc) as (_ & _ & Hlo & Hup).
  change (isalpha c) with (classify Isalpha c).
  rewrite (classify_zero_iff Isalpha c Hc). cbn [classify].
  rewrite (isalpha_nz c Hc). lia.
Qed.

Lemma conversions_agree_off_letters_witness :
  is_int (chr "7") /\
  (tolower (chr "7") = toupper (chr "7") <-> isalpha (chr "7") = 0).
Proof.
  assert (H : is_int (chr "7")) by (split; discriminate).
  split; [exact H |].
  apply (conversions_agree_off_letters (chr "7") H).
Defined.

(** ** Masking to seven bits *)

(** X15: for every integer, negative ones included, [toascii] returns a
    code in 0..127 that differs from its argument by a multiple of 128;
    the result is accepted by [isascii] and is left alone by a second
    [toascii]. *)
Theorem toascii_reduces_mod_128 (c : Z) :
  0 <= toascii c <= 0x7f /\
  (c - toascii c) mod 128 = 0 /\
  isascii (toascii c) = 1 /\
  toascii (toascii c) = toascii c.
Proof.
  assert (Hr : 0 <= toascii c <= 0x7f /\ (c - toascii c) mod 128 = 0).
  { unfold toascii. rewrite land_0x7f. split; euclid. }
  destruct Hr as [Hr Hm]. repeat split; try lia; try exact Hm.
  - rewrite (isascii_range (toascii c)). unfold Table.isascii, Table.between.
    zbool.
  - unfold toascii at 1. rewrite land_0x7f. euclid.
Qed.

(** X16: for every integer, not only 0..255, [isascii c] is nonzero if and
    only if [toascii c = c]. *)
Theorem isascii_iff_toascii_fixed_everywhere (c : Z) :
  isascii c <> 0 <-> toascii c = c.
Proof.
  rewrite (isascii_range c), of_bool_nonzero.
  unfold Table.isascii, Table.between, toascii. rewrite land_0x7f.
  zbool; split; intros H; try euclid; discriminate.
Qed.
